(** * express-ts-boilerplate: configuration, logging sink and request pipeline

    A shallow embedding of [src/config/index.ts], [src/utils/logger.ts],
    [src/routes/index.ts] and [src/app.ts].

    - [process.env] is a finite map from names to strings ([gmap string string]).
    - Module-level code that may throw ([envSchema.parse]) returns a [Parsed]
      value; a [Throws] at module load is the process aborting before it
      listens.
    - An Express application is the ordered stack of layers that [app.use]
      and [app.get] push; a request is dispatched down that stack, each
      handler answering [Next], [Throw] or [Send].
    - The rate limiter's store and the files and console the logger writes
      to form the shared state [Ctx], threaded explicitly. *)

From stdpp Require Import base option list strings gmap.
From Stdlib Require Import ZArith Lia Ascii String.

Local Open Scope string_scope.
Local Open Scope Z_scope.

(** ** Built-ins of the runtime the sources call *)

Module Js.

(** Characters are code units below 256. *)
Definition is_white_space (a : ascii) : bool :=
  let n := Z.of_nat (nat_of_ascii a) in
  ((9 <=? n) && (n <=? 13)) || (n =? 32) || (n =? 160).

Definition digit_of (a : ascii) : option Z :=
  let n := Z.of_nat (nat_of_ascii a) in
  if (48 <=? n) && (n <=? 57) then Some (n - 48) else None.

Fixpoint trim_start (s : string) : string :=
  match s with
  | String a s' => if is_white_space a then trim_start s' else s
  | EmptyString => EmptyString
  end.

Definition reverse (s : string) : string :=
  string_of_list_ascii (rev (list_ascii_of_string s)).

(** [String.prototype.trim]. *)
Definition trim (s : string) : string :=
  reverse (trim_start (reverse (trim_start s))).

(** The longest prefix of decimal digits, read left to right; [acc] is
    [None] until a digit has been seen. *)
Fixpoint parse_digits (s : string) (acc : option Z) : option Z :=
  match s with
  | String a s' =>
      match digit_of a with
      | Some d => parse_digits s' (Some (10 * default 0 acc + d))
      | None => acc
      end
  | EmptyString => acc
  end.

(** [parseInt(s, 10)]. The result is the mathematical integer the digits
    denote, [None] standing for NaN; the Number the runtime returns is the
    double nearest to it (equal to it below 2^53). *)
Definition parseInt10 (s : string) : option Z :=
  match trim_start s with
  | String "-" rest => Z.opp <$> parse_digits rest None
  | String "+" rest => parse_digits rest None
  | rest => parse_digits rest None
  end.

Definition to_lower (a : ascii) : ascii :=
  let n := nat_of_ascii a in
  if ((65 <=? n) && (n <=? 90))%nat then ascii_of_nat (n + 32) else a.

Fixpoint toLowerCase (s : string) : string :=
  match s with
  | String a s' => String (to_lower a) (toLowerCase s')
  | EmptyString => EmptyString
  end.

End Js.

(** ** src/config/index.ts *)

Module Config.

Inductive NodeEnv := development | production | test.

Definition NodeEnv_eqb (a b : NodeEnv) : bool :=
  match a, b with
  | development, development | production, production | test, test => true
  | _, _ => false
  end.

(** [z.enum(['development', 'production', 'test'])]: the value has to be
    one of the three literals, compared as they are. *)
Definition z_enum_NodeEnv (s : string) : option NodeEnv :=
  if String.eqb s "development" then Some development
  else if String.eqb s "production" then Some production
  else if String.eqb s "test" then Some test
  else None.

(** The issue a failed [parse] throws (a ZodError): which key, and what
    was received. *)
Inductive ZodError := invalid_enum_value (key received : string).

Inductive Parsed (A : Type) :=
| Success (a : A)
| Throws (e : ZodError).
Arguments Success {A} a.
Arguments Throws {A} e.

(** The object [envSchema.parse] returns. *)
Record EnvVars := { NODE_ENV : NodeEnv; PORT : string }.

(** [envSchema.parse(process.env)]:
    NODE_ENV is [z.enum([...]).default('development')],
    PORT is [z.string().default('3000')]; other keys are dropped. A value
    of [process.env] is always a string, so [z.string()] accepts every
    PORT that is present. *)
Definition envSchema_parse (env : gmap string string) : Parsed EnvVars :=
  let port := default "3000" (env !! "PORT") in
  match env !! "NODE_ENV" with
  | None => Success {| NODE_ENV := development; PORT := port |}
  | Some s =>
      match z_enum_NodeEnv s with
      | Some m => Success {| NODE_ENV := m; PORT := port |}
      | None => Throws (invalid_enum_value "NODE_ENV" s)
      end
  end.

(** The exported [config] object. *)
Record t := {
  env : NodeEnv;
  port : option Z;
  isProduction : bool;
  isDevelopment : bool;
  isTest : bool;
}.

Definition config_of (envVars : EnvVars) : t :=
  {| env := NODE_ENV envVars;
     port := Js.parseInt10 (PORT envVars);
     isProduction := NodeEnv_eqb (NODE_ENV envVars) production;
     isDevelopment := NodeEnv_eqb (NODE_ENV envVars) development;
     isTest := NodeEnv_eqb (NODE_ENV envVars) test |}.

(** Loading the module: [process_env] is [process.env] as [dotenv.config()]
    left it. *)
Definition config (process_env : gmap string string) : Parsed t :=
  match envSchema_parse process_env with
  | Success v => Success (config_of v)
  | Throws e => Throws e
  end.

(** A second definition, from the specification's words and not from the
    code: a listen port is well formed when it is a non-empty string of
    decimal digits, an execution mode when it is one of the three names.
    An environment is malformed when a consumed field is present and not
    well formed. *)
Definition spec_port_well_formed (s : string) : bool :=
  match s with
  | EmptyString => false
  | _ => forallb (fun a => bool_decide (is_Some (Js.digit_of a))) (list_ascii_of_string s)
  end.

Definition spec_malformed (env : gmap string string) : bool :=
  match env !! "NODE_ENV" with
  | Some s => negb (bool_decide (is_Some (z_enum_NodeEnv s)))
  | None => false
  end
  || match env !! "PORT" with
     | Some s => negb (spec_port_well_formed s)
     | None => false
     end.

End Config.

(** ** src/utils/logger.ts *)

Module Logger.

(** winston's default (npm) levels, most severe first. *)
Inductive Level := error | warn | info | http | verbose | debug | silly.

Definition priority (l : Level) : Z :=
  match l with
  | error => 0 | warn => 1 | info => 2 | http => 3
  | verbose => 4 | debug => 5 | silly => 6
  end.

Definition Level_eqb (a b : Level) : bool := priority a =? priority b.

(** The steps [winston.format.combine] chains; [printf] carries the
    template given to it. *)
Inductive FormatStep :=
| colorize
| timestamp
| printf (template : string -> string -> string -> string)
| json.

Definition Format := list FormatStep.

(** The template of the development format:
    [`[${timestamp}] ${level}: ${message}`]. *)
Definition development_line (timestamp level message : string) : string :=
  "[" +:+ timestamp +:+ "] " +:+ level +:+ ": " +:+ message.

Record Formats := { development : Format; production : Format }.

Definition formats : Formats :=
  {| development := [colorize; timestamp; printf development_line];
     production := [timestamp; json] |}.

Inductive Destination := Console | File (filename : string).

(** A transport and the [level] option it was built with, if any. *)
Record Transport := { destination : Destination; transport_level : option Level }.

Record t := {
  level : Level;
  format : Format;
  transports : list Transport;
}.

(** [winston.createLogger({...})] as the module calls it. *)
Definition logger (config : Config.t) : t :=
  {| level := if Config.isProduction config then info else debug;
     format := if Config.isProduction config
               then production formats else development formats;
     transports :=
       [ {| destination := Console; transport_level := None |};
         {| destination := File "error.log"; transport_level := Some error |};
         {| destination := File "combined.log"; transport_level := None |} ] |}.

(** A transport writes a record when the record's level is at least as
    severe as the transport's own level, or the logger's when it has
    none. *)
Definition accepts (lg : t) (tr : Transport) (l : Level) : bool :=
  priority l <=? priority (default (level lg) (transport_level tr)).

(** The destinations a record of level [l] is written to, in transport
    order. *)
Definition deliver (lg : t) (l : Level) : list Destination :=
  destination <$> filter (fun tr => accepts lg tr l = true) (transports lg).

(** One written record. *)
Record Entry := { entry_level : Level; entry_message : string }.

(** What has been written so far, newest first, per destination. *)
Definition Sink := list (Destination * Entry).

(** [logger.log(level, message)]. *)
Definition log (lg : t) (l : Level) (message : string) (sink : Sink) : Sink :=
  (((fun d => (d, {| entry_level := l; entry_message := message |})) <$> deliver lg l)
     ++ sink)%list.

End Logger.

(** ** Requests, responses and the shared state *)

Module Http.

Inductive Method := GET | HEAD | POST | PUT | PATCH | DELETE | OPTIONS.

Definition Method_eqb (a b : Method) : bool :=
  match a, b with
  | GET, GET | HEAD, HEAD | POST, POST | PUT, PUT
  | PATCH, PATCH | DELETE, DELETE | OPTIONS, OPTIONS => true
  | _, _ => false
  end.

(** What a handler reads of a request: method, pathname, the client
    address the rate limiter keys on, and the clock (in milliseconds) when
    the request arrives. *)
Record Request := {
  method : Method;
  path : string;
  ip : string;
  received_at : Z;
}.

#[warnings="-register-all"]
Inductive Json :=
| JString (s : string)
| JObject (fields : list (string * Json)).

(** [no_body] is a response that ends without one, as the answer to a
    HEAD request does. *)
Inductive Body :=
| json_body (j : Json)
| text_body (s : string)
| no_body.

(** Status and body; response headers are not modelled. *)
Record Response := { status : Z; body : Body }.

(** What a stage or a handler can raise. [CustomError] is the class of
    utils/custom-error.ts, anything else is [Unclassified] and carries its
    detail (message and stack). *)
Inductive Failure :=
| CustomError (message : string) (statusCode : Z)
| Unclassified (detail : string).

(** [new CustomError(message, statusCode = 500)]. *)
Definition new_CustomError (message : string) (statusCode : option Z) : Failure :=
  CustomError message (default 500 statusCode).

(** One client's window in the rate limiter's store. *)
Record Window := { hits : Z; resetTime : Z }.

(** The shared mutable state: the limiter's store, keyed by client, and
    what the logger has written. *)
Record Ctx := {
  store : gmap string Window;
  sink : Logger.Sink;
}.

Definition set_store (c : Ctx) (st : gmap string Window) : Ctx :=
  {| store := st; sink := sink c |}.

Definition set_sink (c : Ctx) (sk : Logger.Sink) : Ctx :=
  {| store := store c; sink := sk |}.

(** How a handler leaves: [next()], [next(err)] or a throw, or a response
    sent. *)
Inductive Outcome :=
| Next (c : Ctx)
| Throw (c : Ctx) (e : Failure)
| Send (c : Ctx) (r : Response).

(** The state a handler leaves behind, and the response if it sent one. *)
Definition ctx_of (o : Outcome) : Ctx :=
  match o with Next c | Throw c _ | Send c _ => c end.


Definition Handler := Ctx -> Request -> Outcome.
Definition ErrorHandler := Failure -> Ctx -> Request -> Outcome.

End Http.

Import Http.

(** ** The rate limiter *)

Module RateLimit.

(** The options [rateLimit] is called with. *)
Record Options := { windowMs : Z; max : Z }.

(** Modelled from the spec: the rejection response of express-rate-limit,
    which is not among the sources. The spec mandates "too many requests"
    semantics and no body; status 429 and the package's default text are
    used. *)
Definition too_many_requests : Response :=
  {| status := 429;
     body := text_body "Too many requests, please try again later." |}.

(** Modelled from the spec: the counter of express-rate-limit's store,
    which is not among the sources (spec 3, Rate-Limit Window, and 4.2).
    An entry is created on the first request from a key and lives for
    [windowMs]; a request inside the window increments it, a request at or
    after [resetTime] starts a new window with one hit. *)
Definition increment (o : Options) (st : gmap string Window) (key : string) (now : Z)
  : Window * gmap string Window :=
  let fresh := {| hits := 1; resetTime := now + windowMs o |} in
  let w := match st !! key with
           | Some w => if now <? resetTime w
                       then {| hits := hits w + 1; resetTime := resetTime w |}
                       else fresh
           | None => fresh
           end in
  (w, <[key := w]> st).

(** Modelled from the spec: the middleware [rateLimit(options)] returns,
    which is not among the sources (spec 4.2). It counts the request under
    the client's key and rejects once the counter exceeds the ceiling;
    otherwise it passes the request on unchanged. *)
Definition rateLimit (o : Options) : Handler := fun c req =>
  let '(w, st) := increment o (store c) (ip req) (received_at req) in
  if max o <? hits w
  then Send (set_store c st) too_many_requests
  else Next (set_store c st).

End RateLimit.

(** ** src/middleware/error.middleware.ts *)

Module ErrorMiddleware.

(** The body [{status: "error", message}] every error response has. *)
Definition error_response (statusCode : Z) (message : string) : Response :=
  {| status := statusCode;
     body := json_body (JObject [("status", JString "error");
                                 ("message", JString message)]) |}.

(** Modelled from the spec: the text of the generic message of an
    unclassified failure, which middleware/error.middleware.ts holds. *)
Definition generic_message : string := "Internal server error".

(** Modelled from the spec: [errorHandler] of middleware/error.middleware.ts,
    which is not among the sources (spec 4.3). An Application Error is
    answered with its status code and message; anything else is logged in
    full at level error and answered with 500 and the generic message. *)
Definition errorHandler (logger : Logger.t) : ErrorHandler := fun err c req =>
  match err with
  | CustomError message statusCode => Send c (error_response statusCode message)
  | Unclassified detail =>
      Send (set_sink c (Logger.log logger Logger.error detail (sink c)))
           (error_response 500 generic_message)
  end.

End ErrorMiddleware.

(** ** Express: layers and dispatch *)

Module Express.

(** How a layer was registered: [use(path, ...)] matches a prefix and any
    method; [get(path, ...)] matches the whole path and GET (HEAD falls
    back to the GET handler). *)
Inductive Route := use (pattern : string) | get (pattern : string).

Record Layer (H : Type) := { route : Route; handle : H }.
Arguments route {H} l.
Arguments handle {H} l.

Fixpoint strip_prefix (p s : string) : option string :=
  match p, s with
  | EmptyString, _ => Some s
  | String a p', String b s' => if Ascii.eqb a b then strip_prefix p' s' else None
  | String _ _, EmptyString => None
  end.

(** The regular expression Express builds for a literal pattern (case
    insensitive, not strict), run on a pathname. With [end_] the whole
    path has to match, up to one trailing slash; without it the pattern
    has to be a prefix that stops at a slash or at the end. ["*"] and a
    prefix ["/"] match everything. *)
Definition path_regexp (pattern : string) (end_ : bool) (pathname : string) : bool :=
  let q := Js.toLowerCase pathname in
  if String.eqb pattern "*" then true
  else if String.eqb pattern "/" then
    if end_ then String.eqb q "" || String.eqb q "/" else true
  else
    match strip_prefix (Js.toLowerCase pattern) q with
    | None => false
    | Some rest =>
        if end_ then String.eqb rest "" || String.eqb rest "/"
        else match rest with
             | EmptyString => true
             | String c _ => Ascii.eqb c "/"
             end
    end.

Definition matches (r : Route) (req : Request) : bool :=
  match r with
  | use p => path_regexp p false (path req)
  | get p =>
      path_regexp p true (path req)
      && (Method_eqb (method req) GET || Method_eqb (method req) HEAD)
  end.

Fixpoint string_drop (n : nat) (s : string) : string :=
  match n, s with
  | O, _ => s
  | S n', String _ s' => string_drop n' s'
  | S _, EmptyString => EmptyString
  end.

(** The pathname a handler mounted with [use] is called with: the part
    the pattern matched is removed (with the slash after it when another
    slash or the end follows) and a leading slash is ensured. A prefix
    ["/"] removes nothing, ["*"] matches and removes the whole path. *)
Definition trim_prefix (pattern pathname : string) : string :=
  if String.eqb pattern "/" then pathname
  else if String.eqb pattern "*" then "/"
  else
    match string_drop (String.length pattern) pathname with
    | EmptyString => "/"
    | String c rest' as rest =>
        if Ascii.eqb c "/" then
          match rest' with
          | EmptyString => "/"
          | String d _ => if Ascii.eqb d "/" then rest' else rest
          end
        else String "/" rest
    end.

(** [res.send], which [res.json] ends in: a HEAD request is answered with
    the status (and headers) and no body, any other request with the
    body as well. *)
Definition res_send (req : Request) (r : Response) : Response :=
  if Method_eqb (method req) HEAD
  then {| status := status r; body := no_body |}
  else r.

(** The request as the layer's handler sees it. *)
Definition enter (r : Route) (req : Request) : Request :=
  match r with
  | use p =>
      if String.eqb p "/" then req
      else {| method := method req; path := trim_prefix p (path req);
              ip := ip req; received_at := received_at req |}
  | get _ => req
  end.

Section Dispatch.

Context {H : Type}.
(** What a registered handle does when called, and what it does as an
    error handler if it is one (a function of four arguments). *)
Variable call : H -> Handler.
Variable call_error : H -> option ErrorHandler.

Definition pass (c : Ctx) (err : option Failure) : Outcome :=
  match err with
  | None => Next c
  | Some e => Throw c e
  end.

(** One layer: skipped when its route does not match, when an error is
    pending and it is not an error handler, or when none is and it is. *)
Definition step (l : Layer H) (c : Ctx) (req : Request) (err : option Failure)
  : Outcome :=
  if matches (route l) req then
    match err, call_error (handle l) with
    | None, None => call (handle l) c (enter (route l) req)
    | Some e, Some h => h e c (enter (route l) req)
    | _, _ => pass c err
    end
  else pass c err.

(** The router's loop over its stack. Falling off the end is [Next] or
    [Throw]: control returns to whoever mounted the router. *)
Fixpoint dispatch (stack : list (Layer H)) (c : Ctx) (req : Request)
  (err : option Failure) : Outcome :=
  match stack with
  | [] => pass c err
  | l :: rest =>
      match step l c req err with
      | Next c' => dispatch rest c' req None
      | Throw c' e => dispatch rest c' req (Some e)
      | Send c' r => Send c' r
      end
  end.

End Dispatch.

End Express.

(** ** src/routes/index.ts and src/app.ts *)

Module App.

Import Express.

(** The functions the application registers. [morgan] carries the format
    name and the [write] of the stream it is given. *)
Inductive Middleware :=
| helmet
| cors
| hpp
| rateLimit (options : RateLimit.Options)
| express_json
| express_urlencoded (extended : bool)
| compression
| morgan (format : string) (write : string -> Logger.Sink -> Logger.Sink)
| swaggerUi_serve
| swaggerUi_setup
| api_docs_json
| health_check
| index_route
| undefined_route
| errorHandler
| healthRouter.

(** What a layer of the application holds: a function, or a router with a
    stack of its own. *)
Inductive Handle :=
| fn (m : Middleware)
| router (stack : list (Layer Middleware)).

Definition Router := list (Layer Middleware).
Definition Application := list (Layer Handle).

(** [Router()] and [express()]: nothing registered yet. *)
Definition new_Router : Router := [].
Definition express : Application := [].

(** [router.use(path, fn)] and [app.use(path, ...fns)], [app.get(path, fn)]:
    each pushes at the end of the stack. *)
Definition Router_use (pattern : string) (m : Middleware) (r : Router) : Router :=
  (r ++ [ {| route := use pattern; handle := m |} ])%list.

Definition app_use (pattern : string) (hs : list Handle) (app : Application)
  : Application :=
  (app ++ ((fun h => {| route := use pattern; handle := h |}) <$> hs))%list.

Definition app_get (pattern : string) (h : Handle) (app : Application) : Application :=
  (app ++ [ {| route := get pattern; handle := h |} ])%list.

(** src/routes/index.ts *)
Definition routes : Router :=
  let routes := new_Router in
  let routes := Router_use "/health" healthRouter routes in
  routes.

(** The options of the limiter: [windowMs: 15 * 60 * 1000, max: 100]. *)
Definition limiter_options : RateLimit.Options :=
  {| RateLimit.windowMs := 15 * 60 * 1000; RateLimit.max := 100 |}.

(** src/app.ts. [logger] is the logger the module imports. *)
Definition createApp (logger : Logger.t) : Application :=
  let app := express in
  (* Security Middleware *)
  let app := app_use "/" [fn helmet] app in
  let app := app_use "/" [fn cors] app in
  let app := app_use "/" [fn hpp] app in
  (* Rate limiting *)
  let limiter := rateLimit limiter_options in
  let app := app_use "/" [fn limiter] app in
  (* Body parsing Middleware *)
  let app := app_use "/" [fn express_json] app in
  let app := app_use "/" [fn (express_urlencoded true)] app in
  (* Compression middleware *)
  let app := app_use "/" [fn compression] app in
  (* Logging *)
  let app :=
    app_use "/"
      [fn (morgan "combined"
             (fun message => Logger.log logger Logger.info (Js.trim message)))]
      app in
  (* Swagger Documentation *)
  let app := app_use "/api-docs" [fn swaggerUi_serve; fn swaggerUi_setup] app in
  let app := app_get "/api-docs.json" (fn api_docs_json) app in
  (* API Routes *)
  let app := app_use "/api" [router routes] app in
  (* Health check endpoint *)
  let app := app_get "/health" (fn health_check) app in
  (* Index route *)
  let app := app_get "/" (fn index_route) app in
  (* Handle undefined routes *)
  let app := app_use "*" [fn undefined_route] app in
  (* Error handling *)
  let app := app_use "/" [fn errorHandler] app in
  app.

(** *** What the registered functions do *)

(** The handlers whose code is not among the sources: the third-party
    middleware and the router of routes/health.routes.ts, with the document
    [swaggerJsdoc(options)] returns. Their behaviour is left open:
    statements below hold for every choice. Stages that act again when the
    response is finished (morgan, compression) appear with what they do on
    the way in. *)
Record Collaborators := {
  vendor : Middleware -> Handler;
  swaggerSpec : Json;
}.

Definition health_ok : Response :=
  {| status := 200; body := json_body (JObject [("status", JString "ok")]) |}.

Definition welcome : Response :=
  {| status := 200;
     body := json_body (JObject [("message", JString "Welcome to the API")]) |}.

Definition route_not_found : Response :=
  {| status := 404;
     body := json_body (JObject [("status", JString "error");
                                 ("message", JString "Route not found")]) |}.

(** Calling a registered function on a request. *)
Definition call (V : Collaborators) (m : Middleware) : Handler :=
  match m with
  | rateLimit options => RateLimit.rateLimit options
  | api_docs_json => fun c req =>
      Send c (res_send req {| status := 200; body := json_body (swaggerSpec V) |})
  | health_check => fun c req => Send c (res_send req health_ok)
  | index_route => fun c req => Send c (res_send req welcome)
  | undefined_route => fun c req => Send c (res_send req route_not_found)
  | _ => vendor V m
  end.

(** [errorHandler] is the one function of four arguments. *)
Definition call_error (logger : Logger.t) (m : Middleware) : option ErrorHandler :=
  match m with
  | errorHandler => Some (ErrorMiddleware.errorHandler logger)
  | _ => None
  end.

Definition call_handle (V : Collaborators) (logger : Logger.t) (h : Handle) : Handler :=
  match h with
  | fn m => call V m
  | router stack => fun c req =>
      dispatch (call V) (call_error logger) stack c req None
  end.

Definition call_handle_error (logger : Logger.t) (h : Handle) : option ErrorHandler :=
  match h with
  | fn m => call_error logger m
  | router _ => None
  end.

(** The application handling one request. [Next] or [Throw] here would
    leave the request to the final handler of Express. *)
Definition app_handle (V : Collaborators) (logger : Logger.t) (c : Ctx) (req : Request)
  : Outcome :=
  dispatch (call_handle V logger) (call_handle_error logger) (createApp logger) c req None.


(** Collaborators that only call [next()]: no response of their own, no
    failure, nothing written. *)
Definition transparent : Collaborators :=
  {| vendor := fun _ c _ => Next c; swaggerSpec := JObject [] |}.

Definition empty_ctx : Ctx := {| store := ∅; sink := [] |}.

End App.

(** ** The vocabulary of the specification *)

Module Pipeline.

Import Express App.

(** The twelve stages of the pipeline, in the order the specification
    numbers them. *)
Inductive Stage :=
| SecureHeaders
| CrossOriginPolicy
| ParameterPollutionGuard
| RateLimiter
| BodyDecoder
| CompressionStage
| AccessLogger
| DocumentationEndpoints
| RouteTableMount
| AuxiliaryEndpoints
| NotFoundResponder
| ErrorBoundary.

Definition pipeline_order : list Stage :=
  [ SecureHeaders; CrossOriginPolicy; ParameterPollutionGuard; RateLimiter;
    BodyDecoder; CompressionStage; AccessLogger; DocumentationEndpoints;
    RouteTableMount; AuxiliaryEndpoints; NotFoundResponder; ErrorBoundary ].

#[global] Instance Stage_eq_dec : EqDecision Stage.
Proof. solve_decision. Defined.

(** The stage a registered layer belongs to. [healthRouter] is mounted by
    the route table, never by the application itself. *)
Definition stage_of (l : Layer Handle) : option Stage :=
  match handle l with
  | fn helmet => Some SecureHeaders
  | fn cors => Some CrossOriginPolicy
  | fn hpp => Some ParameterPollutionGuard
  | fn (rateLimit _) => Some RateLimiter
  | fn express_json | fn (express_urlencoded _) => Some BodyDecoder
  | fn compression => Some CompressionStage
  | fn (morgan _ _) => Some AccessLogger
  | fn swaggerUi_serve | fn swaggerUi_setup | fn api_docs_json =>
      Some DocumentationEndpoints
  | router _ => Some RouteTableMount
  | fn health_check | fn index_route => Some AuxiliaryEndpoints
  | fn undefined_route => Some NotFoundResponder
  | fn errorHandler => Some ErrorBoundary
  | fn healthRouter => None
  end.

(** Consecutive layers of one stage count once. *)
Fixpoint merge_runs (l : list (option Stage)) : list Stage :=
  match l with
  | [] => []
  | None :: rest => merge_runs rest
  | Some a :: rest =>
      match rest with
      | Some b :: _ => if decide (a = b) then merge_runs rest else a :: merge_runs rest
      | _ => a :: merge_runs rest
      end
  end.

Definition endpoints (logger : Logger.t) : Application := drop 8 (createApp logger).

(** The layers ahead of the rate limiter (helmet, cors, hpp) and those
    between it and the documentation endpoints (the two body parsers,
    compression, morgan). *)
Definition before_limiter (logger : Logger.t) : Application := take 3 (createApp logger).
Definition after_limiter (logger : Logger.t) : Application :=
  take 4 (drop 4 (createApp logger)).








(** The rate limiter alone on a run of requests. *)
Fixpoint limit_all (o : RateLimit.Options) (c : Ctx) (reqs : list Request)
  : list Outcome :=
  match reqs with
  | [] => []
  | req :: rest =>
      let out := RateLimit.rateLimit o c req in
      out :: limit_all o (ctx_of out) rest
  end.

(** How many requests of a run come from client [k]. *)
Definition count_key (k : string) (reqs : list Request) : Z :=
  Z.of_nat (List.length (filter (fun r => ip r = k) reqs)).

(** A client, and a request of its own arriving at time [t]. *)
Definition a_client : string := "203.0.113.7".

Definition request_at (m : Method) (pathname : string) (t : Z) : Request :=
  {| method := m; path := pathname; ip := a_client; received_at := t |}.

(** The configuration of a given mode, listening on 3000. *)
Definition config_in (mode : Config.NodeEnv) : Config.t :=
  Config.config_of {| Config.NODE_ENV := mode; Config.PORT := "3000" |}.

(** *** The claims that do not hold of the code, as the specification
    words them *)

(** Every record, at every level, reaches the console, the errors-only
    store and the all-records store. *)
Definition every_record_reaches_three_destinations : Prop :=
  forall (cfg : Config.t) (l : Logger.Level),
    Logger.Console ∈ Logger.deliver (Logger.logger cfg) l /\
    Logger.File "error.log" ∈ Logger.deliver (Logger.logger cfg) l /\
    Logger.File "combined.log" ∈ Logger.deliver (Logger.logger cfg) l.

(** Parsing fails whenever a consumed field is malformed. *)
Definition malformed_environment_aborts : Prop :=
  forall env : gmap string string,
    Config.spec_malformed env = true -> exists e, Config.config env = Config.Throws e.



End Pipeline.

(** ** Further vocabulary: what the tests and the callers rely on *)

Module Usage.

Import Express App Pipeline.

(** The literal each mode is written with in [z.enum([...])]. *)
Definition NodeEnv_name (m : Config.NodeEnv) : string :=
  match m with
  | Config.development => "development"
  | Config.production => "production"
  | Config.test => "test"
  end.

(** Whether [parseInt] finds a digit to start from: after the leading
    white space and one optional sign. *)
Definition starts_with_digit (s : string) : bool :=
  let after_sign :=
    match Js.trim_start s with
    | String "-" rest => rest
    | String "+" rest => rest
    | rest => rest
    end in
  match after_sign with
  | String a _ => bool_decide (is_Some (Js.digit_of a))
  | EmptyString => false
  end.

(** A string with no white space at its first and at its last character. *)
Definition edge_clean (s : string) : bool :=
  match s with
  | String a _ => negb (Js.is_white_space a)
  | EmptyString => true
  end
  && match Js.reverse s with
     | String a _ => negb (Js.is_white_space a)
     | EmptyString => true
     end.

(** The line feed morgan ends each line with. *)
Definition line_feed : string := String (ascii_of_nat 10) EmptyString.

(** GET, or HEAD, which a GET route serves as well. *)
Definition get_or_head (m : Method) : bool := Method_eqb m GET || Method_eqb m HEAD.






End Usage.

(** * Properties *)

Import Express App Pipeline.

(** ** Configuration *)

Lemma config_cases (env : gmap string string) :
  match env !! "NODE_ENV" with
  | None =>
      Config.config env =
      Config.Success (Config.config_of
        {| Config.NODE_ENV := Config.development;
           Config.PORT := default "3000" (env !! "PORT") |})
  | Some s =>
      match Config.z_enum_NodeEnv s with
      | Some m =>
          Config.config env =
          Config.Success (Config.config_of
            {| Config.NODE_ENV := m; Config.PORT := default "3000" (env !! "PORT") |})
      | None => Config.config env = Config.Throws (Config.invalid_enum_value "NODE_ENV" s)
      end
  end.
Proof.
  unfold Config.config, Config.envSchema_parse.
  destruct (env !! "NODE_ENV") as [s|]; [|reflexivity].
  destruct (Config.z_enum_NodeEnv s); reflexivity.
Qed.

(** C4, the claim as worded fails: with PORT=abc in the environment, a
    malformed listen port, the configuration is built all the same, with
    NaN for a port. *)
Lemma config_accepts_malformed_PORT :
  Config.spec_malformed {[ "PORT" := "abc" ]} = true /\
  Config.config {[ "PORT" := "abc" ]} =
    Config.Success
      {| Config.env := Config.development; Config.port := None;
         Config.isProduction := false; Config.isDevelopment := true;
         Config.isTest := false |} /\
  ~ malformed_environment_aborts.
Proof.
  split; [vm_compute; reflexivity|].
  split; [vm_compute; reflexivity|].
  intros Hclaim.
  destruct (Hclaim {[ "PORT" := "abc" ]}) as [e He]; [vm_compute; reflexivity|].
  vm_compute in He. discriminate He.
Qed.

(** C4, as amended: loading the configuration throws exactly when NODE_ENV
    is present and is not one of development, production, test; no field
    is required; PORT is taken as any string and read with parseInt in base
    10; NODE_ENV defaults to development and PORT to 3000 when absent. *)
Theorem config_aborts_exactly_on_bad_NODE_ENV (env : gmap string string) :
  (forall e, Config.config env = Config.Throws e <->
     exists s, env !! "NODE_ENV" = Some s /\ Config.z_enum_NodeEnv s = None /\
               e = Config.invalid_enum_value "NODE_ENV" s) /\
  (env !! "NODE_ENV" = None ->
     exists cfg, Config.config env = Config.Success cfg /\
                 Config.env cfg = Config.development) /\
  (forall cfg, Config.config env = Config.Success cfg ->
     Config.port cfg = Js.parseInt10 (default "3000" (env !! "PORT"))) /\
  (env !! "PORT" = None ->
     forall cfg, Config.config env = Config.Success cfg -> Config.port cfg = Some 3000).
Proof.
  pose proof (config_cases env) as Hc.
  repeat split.
  - intros He. destruct (env !! "NODE_ENV") as [s|]; [|congruence].
    destruct (Config.z_enum_NodeEnv s) eqn:Hs; [congruence|].
    exists s. repeat split; congruence.
  - intros (s & Hs & Hbad & ->). rewrite Hs, Hbad in Hc. exact Hc.
  - intros Hnone. rewrite Hnone in Hc. eexists. split; [exact Hc|reflexivity].
  - intros cfg Hcfg. destruct (env !! "NODE_ENV") as [s|].
    + destruct (Config.z_enum_NodeEnv s); [|congruence].
      rewrite Hc in Hcfg. injection Hcfg as <-. reflexivity.
    + rewrite Hc in Hcfg. injection Hcfg as <-. reflexivity.
  - intros Hport cfg Hcfg. rewrite Hport in Hc. simpl in Hc.
    destruct (env !! "NODE_ENV") as [s|].
    + destruct (Config.z_enum_NodeEnv s); [|congruence].
      rewrite Hc in Hcfg. injection Hcfg as <-. reflexivity.
    + rewrite Hc in Hcfg. injection Hcfg as <-. reflexivity.
Qed.

(** ** The logging sink *)

(** Which transports take a record, for the logger of any configuration. *)
Lemma deliver_cases (cfg : Config.t) (l : Logger.Level) :
  Logger.deliver (Logger.logger cfg) l =
  if Logger.priority l <=? Logger.priority (Logger.level (Logger.logger cfg))
  then if Logger.priority l <=? 0
       then [Logger.Console; Logger.File "error.log"; Logger.File "combined.log"]
       else [Logger.Console; Logger.File "combined.log"]
  else if Logger.priority l <=? 0 then [Logger.File "error.log"] else [].
Proof.
  unfold Logger.deliver, Logger.logger; simpl.
  destruct (Config.isProduction cfg), l; reflexivity.
Qed.

(** C6, the claim as worded fails: a record of level info, in development
    mode, is written to the console and to combined.log and not to
    error.log. *)
Lemma info_record_skips_error_log :
  Logger.deliver (Logger.logger (config_in Config.development)) Logger.info =
    [Logger.Console; Logger.File "combined.log"] /\
  ~ every_record_reaches_three_destinations.
Proof.
  split; [reflexivity|].
  intros Hclaim.
  destruct (Hclaim (config_in Config.development) Logger.info) as (_ & Herr & _).
  vm_compute in Herr.
  repeat (apply elem_of_cons in Herr as [Herr|Herr]; [discriminate Herr|]).
  by apply elem_of_nil in Herr.
Qed.

(** C6, as amended: the logger has three transports, the console, error.log
    and combined.log. A record at or above the logger's minimum level is
    written to the console and to combined.log, in every mode, and to
    error.log as well exactly when its level is error; a record of level
    error is never below the minimum, so it reaches all three. A record
    below the minimum level is written nowhere. *)
Theorem records_reach_console_and_combined_log (cfg : Config.t) (l : Logger.Level) :
  let lg := Logger.logger cfg in
  (Logger.destination <$> Logger.transports lg =
     [Logger.Console; Logger.File "error.log"; Logger.File "combined.log"]) /\
  Logger.deliver lg l =
    (if Logger.priority l <=? Logger.priority (Logger.level lg)
     then if Logger.Level_eqb l Logger.error
          then [Logger.Console; Logger.File "error.log"; Logger.File "combined.log"]
          else [Logger.Console; Logger.File "combined.log"]
     else []) /\
  Logger.deliver lg Logger.error =
    [Logger.Console; Logger.File "error.log"; Logger.File "combined.log"].
Proof.
  intros lg; subst lg. split; [reflexivity|].
  rewrite !deliver_cases. unfold Logger.logger; simpl.
  split; destruct (Config.isProduction cfg); try destruct l; reflexivity.
Qed.

(** A configuration that loads is [config_of] the mode NODE_ENV names
    (development when absent). *)
Lemma config_mode (env : gmap string string) (cfg : Config.t) :
  Config.config env = Config.Success cfg ->
  exists m,
    cfg = Config.config_of
            {| Config.NODE_ENV := m; Config.PORT := default "3000" (env !! "PORT") |} /\
    match env !! "NODE_ENV" with
    | Some s => Config.z_enum_NodeEnv s = Some m
    | None => m = Config.development
    end.
Proof.
  intros Hcfg. pose proof (config_cases env) as Hc.
  destruct (env !! "NODE_ENV") as [s|].
  - destruct (Config.z_enum_NodeEnv s) as [m|] eqn:Hs; [|congruence].
    exists m. split; [congruence|reflexivity].
  - exists Config.development. split; [congruence|reflexivity].
Qed.

(** C7: the logger's profile follows the execution mode. With
    NODE_ENV=production the minimum level is info and the format is
    timestamp then json (structured); with NODE_ENV=development, or
    without NODE_ENV, the minimum level is debug and the format is
    colorize, timestamp, then the one-line template
    "[timestamp] level: message". *)
Theorem logger_profile_follows_mode (env : gmap string string) (cfg : Config.t) :
  Config.config env = Config.Success cfg ->
  (env !! "NODE_ENV" = Some "production" ->
     Logger.level (Logger.logger cfg) = Logger.info /\
     Logger.format (Logger.logger cfg) = [Logger.timestamp; Logger.json]) /\
  (env !! "NODE_ENV" = Some "development" \/ env !! "NODE_ENV" = None ->
     Logger.level (Logger.logger cfg) = Logger.debug /\
     Logger.format (Logger.logger cfg) =
       [Logger.colorize; Logger.timestamp; Logger.printf Logger.development_line] /\
     forall ts l m,
       Logger.development_line ts l m = "[" +:+ ts +:+ "] " +:+ l +:+ ": " +:+ m).
Proof.
  intros Hcfg. destruct (config_mode env cfg Hcfg) as (m & -> & Hm).
  split.
  - intros Henv. rewrite Henv in Hm. vm_compute in Hm.
    injection Hm as <-. split; reflexivity.
  - intros [Henv|Henv]; rewrite Henv in Hm.
    + vm_compute in Hm. injection Hm as <-. repeat split; reflexivity.
    + subst m. repeat split; reflexivity.
Qed.

Lemma logger_profile_follows_mode_witness :
  (({[ "NODE_ENV" := "production" ]} : gmap string string) !! "NODE_ENV"
     = Some "production" ->
     Logger.level (Logger.logger (config_in Config.production)) = Logger.info /\
     Logger.format (Logger.logger (config_in Config.production))
       = [Logger.timestamp; Logger.json]) /\
  (({[ "NODE_ENV" := "production" ]} : gmap string string) !! "NODE_ENV"
     = Some "development" \/
   ({[ "NODE_ENV" := "production" ]} : gmap string string) !! "NODE_ENV" = None ->
     Logger.level (Logger.logger (config_in Config.production)) = Logger.debug /\
     Logger.format (Logger.logger (config_in Config.production)) =
       [Logger.colorize; Logger.timestamp; Logger.printf Logger.development_line] /\
     forall ts l m,
       Logger.development_line ts l m = "[" +:+ ts +:+ "] " +:+ l +:+ ": " +:+ m).
Proof.
  apply (logger_profile_follows_mode {[ "NODE_ENV" := "production" ]}
           (config_in Config.production)).
  vm_compute. reflexivity.
Defined.

(** C10: with NODE_ENV=test the logger has the development profile: minimum
    level debug and the colorized one-line format. The logger reads
    [isProduction] and nothing else of the configuration, so it is the very
    logger of development mode. *)
Theorem test_mode_logs_like_development (env : gmap string string) (cfg : Config.t) :
  Config.config env = Config.Success cfg ->
  env !! "NODE_ENV" = Some "test" ->
  Config.isTest cfg = true /\
  Logger.level (Logger.logger cfg) = Logger.debug /\
  Logger.format (Logger.logger cfg) = Logger.development Logger.formats /\
  Logger.logger cfg = Logger.logger (config_in Config.development) /\
  (forall cfg' : Config.t,
     Config.isProduction cfg' = false -> Logger.logger cfg' = Logger.logger cfg).
Proof.
  intros Hcfg Henv. destruct (config_mode env cfg Hcfg) as (m & -> & Hm).
  rewrite Henv in Hm. vm_compute in Hm. injection Hm as <-.
  repeat split; try reflexivity.
  intros cfg' Hprod. unfold Logger.logger. rewrite Hprod. reflexivity.
Qed.

Lemma test_mode_logs_like_development_witness :
  Config.isTest (config_in Config.test) = true /\
  Logger.level (Logger.logger (config_in Config.test)) = Logger.debug /\
  Logger.format (Logger.logger (config_in Config.test)) = Logger.development Logger.formats /\
  Logger.logger (config_in Config.test) = Logger.logger (config_in Config.development) /\
  (forall cfg' : Config.t,
     Config.isProduction cfg' = false ->
     Logger.logger cfg' = Logger.logger (config_in Config.test)).
Proof.
  apply (test_mode_logs_like_development {[ "NODE_ENV" := "test" ]}
           (config_in Config.test)); vm_compute; reflexivity.
Defined.

(** ** The pipeline builder *)

(** C1: whatever logger the module holds, [createApp] registers its layers
    in the order of the specification: secure headers, cross-origin
    policy, parameter-pollution guard, rate limiter, body decoder (JSON,
    then URL-encoded), compression, access logger, documentation endpoints,
    the route table mounted under /api, the liveness probe and the welcome
    root, the catch-all 404 responder, and the error boundary last. *)
Theorem createApp_registers_stages_in_order (logger : Logger.t) :
  stage_of <$> createApp logger =
    Some <$> [ SecureHeaders; CrossOriginPolicy; ParameterPollutionGuard; RateLimiter;
               BodyDecoder; BodyDecoder; CompressionStage; AccessLogger;
               DocumentationEndpoints; DocumentationEndpoints; DocumentationEndpoints;
               RouteTableMount; AuxiliaryEndpoints; AuxiliaryEndpoints;
               NotFoundResponder; ErrorBoundary ] /\
  merge_runs (stage_of <$> createApp logger) = pipeline_order /\
  handle <$> filter (fun l => stage_of l = Some BodyDecoder) (createApp logger) =
    [fn express_json; fn (express_urlencoded true)] /\
  filter (fun l => stage_of l = Some RouteTableMount) (createApp logger) =
    [ {| route := use "/api"; handle := router routes |} ] /\
  filter (fun l => stage_of l = Some AuxiliaryEndpoints) (createApp logger) =
    [ {| route := get "/health"; handle := fn health_check |};
      {| route := get "/"; handle := fn index_route |} ] /\
  last (createApp logger) = Some {| route := use "/"; handle := fn errorHandler |}.
Proof. repeat split; reflexivity. Qed.

(** ** Dispatch *)

Section DispatchFacts.

Context {H : Type}.
Variable call : H -> Handler.
Variable call_error : H -> option ErrorHandler.

Lemma dispatch_app (l1 l2 : list (Layer H)) (c : Ctx) (req : Request)
    (err : option Failure) :
  dispatch call call_error (l1 ++ l2)%list c req err =
  match dispatch call call_error l1 c req err with
  | Next c' => dispatch call call_error l2 c' req None
  | Throw c' e => dispatch call call_error l2 c' req (Some e)
  | Send c' r => Send c' r
  end.
Proof.
  revert c err. induction l1 as [|l l1 IH]; intros c err; simpl.
  - destruct err; reflexivity.
  - destruct (step call call_error l c req err); auto.
Qed.

(** With an error pending, a layer that is no error handler is skipped. *)
Lemma step_skips_on_error (l : Layer H) (c : Ctx) (req : Request) (e : Failure) :
  call_error (handle l) = None ->
  step call call_error l c req (Some e) = Throw c e.
Proof.
  intros Hl. unfold step. rewrite Hl. destruct (matches (route l) req); reflexivity.
Qed.

Lemma dispatch_skips_on_error (pre post : list (Layer H)) (c : Ctx) (req : Request)
    (e : Failure) :
  Forall (fun l => call_error (handle l) = None) pre ->
  dispatch call call_error (pre ++ post)%list c req (Some e) =
  dispatch call call_error post c req (Some e).
Proof.
  induction 1 as [|l pre Hl _ IH]; simpl; [reflexivity|].
  rewrite step_skips_on_error by exact Hl. exact IH.
Qed.

End DispatchFacts.

(** ** The error boundary *)

(** A failure pending anywhere in the application's stack reaches
    [errorHandler], and what it answers is the outcome. *)
Lemma failures_funnel_to_errorHandler (V : Collaborators) (logger : Logger.t)
    (k : nat) (c : Ctx) (req : Request) (e : Failure) :
  (k < List.length (createApp logger))%nat ->
  dispatch (call_handle V logger) (call_handle_error logger)
    (drop k (createApp logger)) c req (Some e) =
  ErrorMiddleware.errorHandler logger e c req.
Proof.
  intros Hk.
  change (createApp logger)
    with (take 15 (createApp logger) ++ [ {| route := use "/"; handle := fn errorHandler |} ])%list.
  change (List.length (createApp logger)) with 16%nat in Hk.
  rewrite drop_app_le by (simpl; lia).
  rewrite dispatch_skips_on_error.
  - simpl. unfold step. simpl. destruct (ErrorMiddleware.errorHandler logger e c req); reflexivity.
  - apply Forall_drop. repeat constructor.
Qed.

(** C2: the error boundary answers an Application Error with the status
    code it carries and the body {status: "error", message}; any other
    failure is written in full, at level error, to the console, error.log
    and combined.log, and answered with status 500 and the same shape
    carrying the generic message, the same for every failure detail. A
    failure pending at any layer of the application is answered this
    way. *)
Theorem error_boundary_contract (V : Collaborators) (cfg : Config.t) (e : Failure)
    (c : Ctx) (req : Request) :
  let lg := Logger.logger cfg in
  match e with
  | CustomError message statusCode =>
      ErrorMiddleware.errorHandler lg e c req =
        Send c {| status := statusCode;
                  body := json_body (JObject [("status", JString "error");
                                              ("message", JString message)]) |}
  | Unclassified detail =>
      let entry := {| Logger.entry_level := Logger.error;
                      Logger.entry_message := detail |} in
      ErrorMiddleware.errorHandler lg e c req =
        Send {| store := store c;
                sink := (Logger.Console, entry)
                        :: (Logger.File "error.log", entry)
                        :: (Logger.File "combined.log", entry)
                        :: sink c |}
             {| status := 500;
                body := json_body (JObject [("status", JString "error");
                                            ("message", JString ErrorMiddleware.generic_message)]) |}
  end /\
  (forall k : nat,
     (k < List.length (createApp lg))%nat ->
     dispatch (call_handle V lg) (call_handle_error lg) (drop k (createApp lg))
       c req (Some e) = ErrorMiddleware.errorHandler lg e c req).
Proof.
  intros lg. split.
  - destruct e as [message statusCode|detail]; [reflexivity|].
    unfold ErrorMiddleware.errorHandler, set_sink, Logger.log. subst lg.
    rewrite deliver_cases.
    unfold Logger.logger; simpl. destruct (Config.isProduction cfg); reflexivity.
  - intros k Hk. apply failures_funnel_to_errorHandler. exact Hk.
Qed.

(** ** The rate limiter *)

(** The limiter changes the store at the client's key and nothing else. *)
Lemma rateLimit_ctx (o : RateLimit.Options) (c : Ctx) (req : Request) :
  ctx_of (RateLimit.rateLimit o c req) =
  set_store c (RateLimit.increment o (store c) (ip req) (received_at req)).2.
Proof.
  unfold RateLimit.rateLimit.
  destruct (RateLimit.increment o (store c) (ip req) (received_at req)) as [w st].
  simpl. destruct (RateLimit.max o <? hits w); reflexivity.
Qed.

(** A request inside the client's window counts one more hit. *)
Lemma rateLimit_in_window (o : RateLimit.Options) (c : Ctx) (req : Request)
    (n rt : Z) :
  store c !! ip req = Some {| hits := n; resetTime := rt |} ->
  received_at req < rt ->
  let c' := set_store c (<[ip req := {| hits := n + 1; resetTime := rt |}]> (store c)) in
  RateLimit.rateLimit o c req =
  if RateLimit.max o <? n + 1 then Send c' RateLimit.too_many_requests else Next c'.
Proof.
  intros Hst Hlt. unfold RateLimit.rateLimit, RateLimit.increment.
  rewrite Hst. simpl. apply Z.ltb_lt in Hlt. rewrite Hlt. reflexivity.
Qed.

(** A request with no window open for the client starts one. *)
Lemma rateLimit_new_window (o : RateLimit.Options) (c : Ctx) (req : Request) :
  match store c !! ip req with
  | Some w => resetTime w <= received_at req
  | None => True
  end ->
  let w := {| hits := 1; resetTime := received_at req + RateLimit.windowMs o |} in
  let c' := set_store c (<[ip req := w]> (store c)) in
  RateLimit.rateLimit o c req =
  if RateLimit.max o <? 1 then Send c' RateLimit.too_many_requests else Next c'.
Proof.
  intros Hopen. unfold RateLimit.rateLimit, RateLimit.increment.
  destruct (store c !! ip req) as [w|]; [|reflexivity].
  apply Z.ltb_ge in Hopen. rewrite Hopen. reflexivity.
Qed.

Lemma count_key_cons (k : string) (a : Request) (reqs : list Request) :
  count_key k (a :: reqs) = (if decide (ip a = k) then 1 else 0) + count_key k reqs.
Proof.
  unfold count_key. destruct (decide (ip a = k)) as [Hk|Hk].
  - rewrite filter_cons_True by exact Hk. simpl List.length. lia.
  - rewrite filter_cons_False by exact Hk. lia.
Qed.

(** Inside a window of client [k] that holds [n] hits, the request of [k]
    at position [i] of a run passes exactly when [n] and the requests of
    [k] up to and including it stay within the ceiling. Requests of other
    clients in between change nothing. *)
Lemma limit_all_in_window (o : RateLimit.Options) (k : string) (reqs : list Request) :
  forall (c : Ctx) (n rt : Z),
    store c !! k = Some {| hits := n; resetTime := rt |} ->
    (forall r, r ∈ reqs -> ip r = k -> received_at r < rt) ->
    forall (i : nat) (r : Request),
      reqs !! i = Some r -> ip r = k ->
      exists c',
        limit_all o c reqs !! i =
        Some (if bool_decide (n + count_key k (take (S i) reqs) <= RateLimit.max o)
              then Next c' else Send c' RateLimit.too_many_requests).
Proof.
  induction reqs as [|a reqs IH]; intros c n rt Hst Hin i r Hi Hk; [discriminate Hi|].
  destruct i as [|i].
  - simpl in Hi. injection Hi as ->. subst k. simpl limit_all. simpl lookup.
    rewrite (rateLimit_in_window o c r n rt Hst) by (apply Hin; [left|reflexivity]).
    change (take 1 (r :: reqs)) with [r]. rewrite count_key_cons.
    rewrite decide_True by reflexivity. change (count_key (ip r) []) with 0.
    eexists. f_equal.
    destruct (Z.ltb_spec (RateLimit.max o) (n + 1)).
    + rewrite bool_decide_eq_false_2 by lia. reflexivity.
    + rewrite bool_decide_eq_true_2 by lia. reflexivity.
  - simpl in Hi. simpl limit_all. rewrite lookup_cons.
    change (take (S (S i)) (a :: reqs)) with (a :: take (S i) reqs).
    rewrite count_key_cons.
    assert (Hin' : forall r', r' ∈ reqs -> ip r' = k -> received_at r' < rt)
      by (intros r' Hr'; apply Hin; right; exact Hr').
    destruct (decide (ip a = k)) as [Ha|Ha].
    + destruct (IH (ctx_of (RateLimit.rateLimit o c a)) (n + 1) rt) with (i := i) (r := r)
        as [c' Hc']; try assumption.
      { rewrite <- Ha in Hst |- *.
        rewrite (rateLimit_in_window o c a n rt Hst) by (apply Hin; [left|exact Ha]).
        destruct (RateLimit.max o <? n + 1); simpl; apply lookup_insert_eq. }
      exists c'. rewrite Hc', Z.add_assoc. reflexivity.
    + destruct (IH (ctx_of (RateLimit.rateLimit o c a)) n rt) with (i := i) (r := r)
        as [c' Hc']; try assumption.
      { rewrite rateLimit_ctx. unfold RateLimit.increment. simpl.
        rewrite lookup_insert_ne by exact Ha. exact Hst. }
      exists c'. rewrite Hc', Z.add_0_l. reflexivity.
Qed.

(** C3: take any client [k] and a run of requests that opens a window for
    [k] with its first request, all later requests of [k] falling inside
    the 15 minutes that follow. Among the requests of [k], the first 100
    are passed on and the 101st and every later one is answered with the
    rejection, whatever other clients send in between. Once a client's
    window has elapsed, its next request is passed on and starts a new
    window with one hit. *)
Theorem limiter_admits_100_per_window (k : string) (c : Ctx) (first : Request)
    (rest : list Request) :
  ip first = k ->
  match store c !! k with
  | Some w => resetTime w <= received_at first
  | None => True
  end ->
  (forall r, r ∈ rest -> ip r = k -> received_at r < received_at first + 15 * 60 * 1000) ->
  (forall (i : nat) (r : Request),
     (first :: rest) !! i = Some r -> ip r = k ->
     exists c',
       limit_all limiter_options c (first :: rest) !! i =
       Some (if bool_decide (count_key k (take (S i) (first :: rest)) <= 100)
             then Next c' else Send c' RateLimit.too_many_requests)) /\
  (forall (c2 : Ctx) (r : Request) (w : Window),
     ip r = k -> store c2 !! k = Some w -> resetTime w <= received_at r ->
     RateLimit.rateLimit limiter_options c2 r =
     Next (set_store c2
             (<[k := {| hits := 1; resetTime := received_at r + 15 * 60 * 1000 |}]>
                (store c2)))).
Proof.
  intros Hfirst Hopen Hin. split.
  - intros i r Hi Hk. destruct i as [|i].
    + simpl in Hi. injection Hi as ->. simpl limit_all. simpl lookup.
      rewrite <- Hk in Hopen. rewrite (rateLimit_new_window _ _ _ Hopen).
      change (take 1 (r :: rest)) with [r]. rewrite count_key_cons.
      rewrite decide_True by exact Hk. eexists. reflexivity.
    + simpl in Hi. simpl limit_all. rewrite lookup_cons.
      change (take (S (S i)) (first :: rest)) with (first :: take (S i) rest).
      rewrite count_key_cons, decide_True by exact Hfirst.
      apply (limit_all_in_window limiter_options k rest _ 1
               (received_at first + 15 * 60 * 1000)) with (r := r); try assumption.
      rewrite <- Hfirst in Hopen |- *. rewrite (rateLimit_new_window _ _ _ Hopen).
      simpl. apply lookup_insert_eq.
  - intros c2 r w Hr Hst Hle. rewrite <- Hr in Hst |- *.
    pose proof (rateLimit_new_window limiter_options c2 r) as Hnew.
    rewrite Hst in Hnew. exact (Hnew Hle).
Qed.

Lemma limiter_admits_100_per_window_witness :
  (forall (i : nat) (r : Request),
     (request_at GET "/health" 0 :: repeat (request_at GET "/health" 1) 100) !! i = Some r ->
     ip r = a_client ->
     exists c',
       limit_all limiter_options empty_ctx
         (request_at GET "/health" 0 :: repeat (request_at GET "/health" 1) 100) !! i =
       Some (if bool_decide
                  (count_key a_client
                     (take (S i)
                        (request_at GET "/health" 0 :: repeat (request_at GET "/health" 1) 100))
                   <= 100)
             then Next c' else Send c' RateLimit.too_many_requests)) /\
  (forall (c2 : Ctx) (r : Request) (w : Window),
     ip r = a_client -> store c2 !! a_client = Some w -> resetTime w <= received_at r ->
     RateLimit.rateLimit limiter_options c2 r =
     Next (set_store c2
             (<[a_client := {| hits := 1; resetTime := received_at r + 15 * 60 * 1000 |}]>
                (store c2)))).
Proof.
  apply (limiter_admits_100_per_window a_client empty_ctx (request_at GET "/health" 0)
           (repeat (request_at GET "/health" 1) 100)).
  - reflexivity.
  - vm_compute. exact I.
  - intros r Hr _. apply list_elem_of_In, repeat_spec in Hr. subst r. reflexivity.
Defined.

(** ** The route table *)













(** ** Repeating the liveness probe *)

Lemma createApp_around_limiter (logger : Logger.t) :
  createApp logger =
  (before_limiter logger
     ++ {| route := use "/"; handle := fn (rateLimit limiter_options) |}
        :: (after_limiter logger ++ endpoints logger))%list.
Proof. reflexivity. Qed.

(** The limiter's layer matches every request and hands it to the
    limiter as it is. *)
Lemma dispatch_limiter_layer (V : Collaborators) (logger : Logger.t)
    (rest : Application) (c : Ctx) (req : Request) :
  dispatch (call_handle V logger) (call_handle_error logger)
    ({| route := use "/"; handle := fn (rateLimit limiter_options) |} :: rest)
    c req None =
  match RateLimit.rateLimit limiter_options c req with
  | Next c' => dispatch (call_handle V logger) (call_handle_error logger) rest c' req None
  | Throw c' e =>
      dispatch (call_handle V logger) (call_handle_error logger) rest c' req (Some e)
  | Send c' r => Send c' r
  end.
Proof. reflexivity. Qed.










(** * Further properties of the code *)

Import Usage.

(** ** Configuration: modes, flags, the port *)

Lemma z_enum_NodeEnv_name (s : string) (m : Config.NodeEnv) :
  Config.z_enum_NodeEnv s = Some m <-> s = NodeEnv_name m.
Proof.
  unfold Config.z_enum_NodeEnv. split.
  - destruct (String.eqb_spec s "development") as [->|_]; [intros [= <-]; reflexivity|].
    destruct (String.eqb_spec s "production") as [->|_]; [intros [= <-]; reflexivity|].
    destruct (String.eqb_spec s "test") as [->|_]; [intros [= <-]; reflexivity|].
    discriminate.
  - intros ->. destruct m; reflexivity.
Qed.

(** X1: in a configuration that loads, exactly one of isProduction,
    isDevelopment and isTest is set, the one of [env]; and [env] is the
    mode NODE_ENV spells, letter for letter, or development when NODE_ENV
    is absent. *)
Theorem config_flags_follow_NODE_ENV (env : gmap string string) (cfg : Config.t) :
  Config.config env = Config.Success cfg ->
  (Config.isProduction cfg, Config.isDevelopment cfg, Config.isTest cfg) =
    match Config.env cfg with
    | Config.production => (true, false, false)
    | Config.development => (false, true, false)
    | Config.test => (false, false, true)
    end /\
  match env !! "NODE_ENV" with
  | Some s => s = NodeEnv_name (Config.env cfg)
  | None => Config.env cfg = Config.development
  end.
Proof.
  intros Hcfg. destruct (config_mode env cfg Hcfg) as (m & -> & Hm).
  split; [destruct m; reflexivity|].
  destruct (env !! "NODE_ENV") as [s|]; [|exact Hm].
  apply z_enum_NodeEnv_name. exact Hm.
Qed.

Lemma config_flags_follow_NODE_ENV_witness :
  (Config.isProduction (config_in Config.test), Config.isDevelopment (config_in Config.test),
   Config.isTest (config_in Config.test)) =
    match Config.env (config_in Config.test) with
    | Config.production => (true, false, false)
    | Config.development => (false, true, false)
    | Config.test => (false, false, true)
    end /\
  match ({[ "NODE_ENV" := "test" ]} : gmap string string) !! "NODE_ENV" with
  | Some s => s = NodeEnv_name (Config.env (config_in Config.test))
  | None => Config.env (config_in Config.test) = Config.development
  end.
Proof.
  apply (config_flags_follow_NODE_ENV {[ "NODE_ENV" := "test" ]} (config_in Config.test)).
  vm_compute. reflexivity.
Defined.

(** X2: writing a mode's name into NODE_ENV and loading gives that mode
    back, whatever else the environment holds; the port is still read
    from PORT. *)
Theorem config_reads_back_NODE_ENV (env : gmap string string) (m : Config.NodeEnv) :
  Config.config (<["NODE_ENV" := NodeEnv_name m]> env) =
  Config.Success
    (Config.config_of
       {| Config.NODE_ENV := m; Config.PORT := default "3000" (env !! "PORT") |}).
Proof.
  pose proof (config_cases (<["NODE_ENV" := NodeEnv_name m]> env)) as Hc.
  rewrite lookup_insert_eq in Hc.
  rewrite (proj2 (z_enum_NodeEnv_name _ m) eq_refl) in Hc.
  rewrite lookup_insert_ne in Hc by discriminate. exact Hc.
Qed.

(** X3: the configuration reads NODE_ENV and PORT and nothing else:
    setting or removing any other variable changes neither whether it
    loads nor what it holds. *)
Theorem config_ignores_other_variables (env : gmap string string) (k v : string) :
  k <> "NODE_ENV" -> k <> "PORT" ->
  Config.config (<[k := v]> env) = Config.config env /\
  Config.config (delete k env) = Config.config env.
Proof.
  intros Hn Hp. unfold Config.config, Config.envSchema_parse.
  rewrite !lookup_insert_ne, !lookup_delete_ne by assumption. split; reflexivity.
Qed.

Lemma config_ignores_other_variables_witness :
  Config.config (<["DATABASE_URL" := "postgresql://localhost:5432/mydb"]>
                   {[ "PORT" := "8080" ]}) =
    Config.config {[ "PORT" := "8080" ]} /\
  Config.config (delete "DATABASE_URL" ({[ "PORT" := "8080" ]} : gmap string string)) =
    Config.config {[ "PORT" := "8080" ]}.
Proof.
  apply (config_ignores_other_variables {[ "PORT" := "8080" ]} "DATABASE_URL"
           "postgresql://localhost:5432/mydb"); discriminate.
Defined.

Lemma parse_digits_started (s : string) (a : Z) :
  exists v, Js.parse_digits s (Some a) = Some v.
Proof.
  revert a. induction s as [|c s IH]; intros a; simpl; [eauto|].
  destruct (Js.digit_of c); [apply IH|eauto].
Qed.

Lemma parse_digits_None (s : string) :
  Js.parse_digits s None = None <->
  match s with
  | String a _ => bool_decide (is_Some (Js.digit_of a))
  | EmptyString => false
  end = false.
Proof.
  destruct s as [|c s]; cbn [Js.parse_digits]; [tauto|].
  destruct (Js.digit_of c) as [d|].
  - destruct (parse_digits_started s (10 * default 0 None + d)) as [v Hv].
    rewrite Hv. rewrite bool_decide_eq_true_2 by eauto. split; discriminate.
  - rewrite bool_decide_eq_false_2 by (intros [? ?]; discriminate). tauto.
Qed.

Lemma parseInt10_None (s : string) :
  Js.parseInt10 s = None <-> starts_with_digit s = false.
Proof.
  unfold Js.parseInt10, starts_with_digit.
  destruct (Js.trim_start s) as [|[b0 b1 b2 b3 b4 b5 b6 b7] rest].
  - apply parse_digits_None.
  - destruct b0, b1, b2, b3, b4, b5, b6, b7;
      rewrite ?fmap_None; apply parse_digits_None.
Qed.

(** X4: the port of a configuration that loads is NaN exactly when PORT,
    after leading white space and one optional sign, does not start with a
    decimal digit (an empty PORT included); any other PORT gives a
    number, whatever follows the digits. *)
Theorem config_port_is_NaN_iff_no_leading_digit (env : gmap string string)
    (cfg : Config.t) :
  Config.config env = Config.Success cfg ->
  (Config.port cfg = None <->
   starts_with_digit (default "3000" (env !! "PORT")) = false).
Proof.
  intros Hcfg. destruct (config_mode env cfg Hcfg) as (m & -> & _).
  apply parseInt10_None.
Qed.

Lemma config_port_is_NaN_iff_no_leading_digit_witness :
  Config.port (Config.config_of
                 {| Config.NODE_ENV := Config.development; Config.PORT := " +80px" |})
    = None <->
  starts_with_digit
    (default "3000" (({[ "PORT" := " +80px" ]} : gmap string string) !! "PORT")) = false.
Proof.
  apply (config_port_is_NaN_iff_no_leading_digit {[ "PORT" := " +80px" ]}).
  vm_compute. reflexivity.
Defined.

(** ** The logger: thresholds, and the access log *)

(** X5: a record is written nowhere exactly when its level is below the
    logger's minimum: http, verbose, debug and silly in production, silly
    alone otherwise. Severity is respected: a destination that takes a
    record takes every record at least as severe. *)
Theorem logger_drops_exactly_below_minimum (cfg : Config.t) (l : Logger.Level) :
  (Logger.deliver (Logger.logger cfg) l = [] <->
   (if Config.isProduction cfg then 2 else 5) < Logger.priority l) /\
  (forall (l' : Logger.Level) (d : Logger.Destination),
     Logger.priority l' <= Logger.priority l ->
     d ∈ Logger.deliver (Logger.logger cfg) l ->
     d ∈ Logger.deliver (Logger.logger cfg) l').
Proof.
  split.
  - rewrite deliver_cases. unfold Logger.logger; simpl.
    destruct (Config.isProduction cfg), l; simpl; split; (discriminate || lia || reflexivity).
  - intros l' d Hle Hd. rewrite deliver_cases in Hd |- *.
    unfold Logger.logger in Hd |- *; simpl in Hd |- *.
    destruct (Config.isProduction cfg), l, l'; simpl in Hle, Hd |- *;
      try lia; repeat (apply elem_of_cons in Hd as [->|Hd]);
      try (apply elem_of_nil in Hd; destruct Hd); repeat constructor.
Qed.

Lemma list_ascii_of_string_app (s t : string) :
  list_ascii_of_string (s +:+ t) = (list_ascii_of_string s ++ list_ascii_of_string t)%list.
Proof. induction s as [|a s IH]; simpl; [reflexivity|]. rewrite IH. reflexivity. Qed.

Lemma reverse_snoc (s : string) (a : ascii) :
  Js.reverse (s +:+ String a EmptyString) = String a (Js.reverse s).
Proof.
  unfold Js.reverse. rewrite list_ascii_of_string_app. simpl.
  rewrite rev_app_distr. reflexivity.
Qed.

Lemma reverse_involutive (s : string) : Js.reverse (Js.reverse s) = s.
Proof.
  unfold Js.reverse.
  rewrite list_ascii_of_string_of_list_ascii, rev_involutive.
  apply string_of_list_ascii_of_string.
Qed.

Lemma trim_start_clean (s : string) :
  match s with
  | String a _ => negb (Js.is_white_space a)
  | EmptyString => true
  end = true ->
  Js.trim_start s = s.
Proof.
  destruct s as [|a s]; simpl; [reflexivity|].
  destruct (Js.is_white_space a); [discriminate|reflexivity].
Qed.

(** [trim] takes the line feed off a line that has no white space at its
    ends, and nothing else. *)
Lemma trim_line_feed (line : string) :
  edge_clean line = true -> Js.trim (line +:+ line_feed) = line.
Proof.
  unfold edge_clean. intros Hclean. apply andb_prop in Hclean as [Hhead Hlast].
  unfold Js.trim. destruct line as [|a line]; [reflexivity|].
  change (String a line +:+ line_feed) with (String a (line +:+ line_feed)).
  rewrite (trim_start_clean (String a (line +:+ line_feed))) by exact Hhead.
  change (String a (line +:+ line_feed)) with (String a line +:+ line_feed).
  unfold line_feed. rewrite reverse_snoc.
  change (Js.trim_start (String (ascii_of_nat 10) (Js.reverse (String a line))))
    with (Js.trim_start (Js.reverse (String a line))).
  rewrite trim_start_clean by exact Hlast.
  apply reverse_involutive.
Qed.

(** X6: the stream [createApp] hands to morgan writes each line, trimmed,
    at level info: in every mode the line goes to the console and to
    combined.log, once each, and never to error.log. A line without white
    space at its ends, followed by morgan's line feed, is logged as it
    is. *)
Theorem access_log_goes_to_console_and_combined_log (cfg : Config.t) :
  exists write : string -> Logger.Sink -> Logger.Sink,
    createApp (Logger.logger cfg) !! 7%nat =
      Some {| route := use "/"; handle := fn (morgan "combined" write) |} /\
    (forall (message : string) (sink : Logger.Sink),
       write message sink =
       (Logger.Console,
        {| Logger.entry_level := Logger.info; Logger.entry_message := Js.trim message |})
       :: (Logger.File "combined.log",
           {| Logger.entry_level := Logger.info;
              Logger.entry_message := Js.trim message |})
       :: sink) /\
    (forall (line : string) (sink : Logger.Sink),
       edge_clean line = true ->
       write (line +:+ line_feed) sink =
       (Logger.Console,
        {| Logger.entry_level := Logger.info; Logger.entry_message := line |})
       :: (Logger.File "combined.log",
           {| Logger.entry_level := Logger.info; Logger.entry_message := line |})
       :: sink).
Proof.
  assert (Hwrite : forall message sink,
    Logger.log (Logger.logger cfg) Logger.info (Js.trim message) sink =
    (Logger.Console,
     {| Logger.entry_level := Logger.info; Logger.entry_message := Js.trim message |})
    :: (Logger.File "combined.log",
        {| Logger.entry_level := Logger.info; Logger.entry_message := Js.trim message |})
    :: sink).
  { intros message sink. unfold Logger.log. rewrite deliver_cases.
    unfold Logger.logger; simpl. destruct (Config.isProduction cfg); reflexivity. }
  eexists. split; [reflexivity|]. split.
  - exact Hwrite.
  - intros line sink Hclean. rewrite Hwrite, trim_line_feed by exact Hclean. reflexivity.
Qed.

(** ** The endpoints *)


Lemma get_or_head_cases (m : Method) :
  get_or_head m = true -> m = GET \/ m = HEAD.
Proof. destruct m; simpl; intros Hm; try discriminate Hm; auto. Qed.











(** ** The route table *)





(** ** Every request is answered *)



(** ** A fresh application and the test suite *)

Section DispatchStore.

Context {H : Type}.
Variable call : H -> Handler.
Variable call_error : H -> option ErrorHandler.


End DispatchStore.









(** ** What a rejected request does not reach *)

(** X14: the limiter is registered ahead of the body parsers, compression,
    morgan and every route: a request it answers itself reaches none of
    them, whatever they would do, and errorHandler neither. The limiter's
    response is the application's and the logging sink is as helmet, cors
    and hpp left it: a rejected request leaves no line in the access
    log. *)
Theorem limiter_response_is_final (V : Collaborators) (logger : Logger.t)
    (c c3 c4 : Ctx) (req : Request) (r : Response) :
  dispatch (call_handle V logger) (call_handle_error logger) (before_limiter logger)
    c req None = Next c3 ->
  RateLimit.rateLimit limiter_options c3 req = Send c4 r ->
  app_handle V logger c req = Send c4 r /\ sink c4 = sink c3.
Proof.
  intros H3 Hl. split.
  - unfold app_handle.
    rewrite createApp_around_limiter, dispatch_app, H3, dispatch_limiter_layer, Hl.
    reflexivity.
  - pose proof (rateLimit_ctx limiter_options c3 req) as Hctx.
    rewrite Hl in Hctx. simpl in Hctx. rewrite Hctx. reflexivity.
Qed.

Lemma limiter_response_is_final_witness :
  app_handle transparent (Logger.logger (config_in Config.production))
    {| store := {[ a_client := {| hits := 100; resetTime := 900000 |} ]}; sink := [] |}
    (request_at POST "/api/health" 5) =
  Send {| store := {[ a_client := {| hits := 101; resetTime := 900000 |} ]}; sink := [] |}
       RateLimit.too_many_requests /\
  sink {| store := {[ a_client := {| hits := 101; resetTime := 900000 |} ]}; sink := [] |} =
  sink {| store := {[ a_client := {| hits := 100; resetTime := 900000 |} ]}; sink := [] |}.
Proof.
  apply (limiter_response_is_final transparent
           (Logger.logger (config_in Config.production))
           {| store := {[ a_client := {| hits := 100; resetTime := 900000 |} ]}; sink := [] |}
           {| store := {[ a_client := {| hits := 100; resetTime := 900000 |} ]}; sink := [] |}).
  - reflexivity.
  - vm_compute. reflexivity.
Defined.
